(** * The global exception filter of api-base-template

    A shallow embedding of [src/common/exception/global-exception.filter.ts]
    and the properties of its error classification, response construction
    and logging. *)

From Stdlib Require Import ZArith String List Bool Lia.
From stdpp Require Import base option strings gmap pretty.

Import ListNotations.
Local Open Scope string_scope.
Local Open Scope Z_scope.

Set Warnings "-register-all".

(** ** JavaScript values

    The values a handler can attach to an exception or throw as they are:
    primitives, arrays and plain objects.  Numbers are the safe integers,
    which are exact and print with all their digits (NaN, infinities,
    fractions and larger magnitudes are left out).  Objects are acyclic
    records of data properties with [Object.prototype] as prototype, listed
    in insertion order, a property being read from its first entry; arrays
    have no property of their own besides their elements.  No value is
    callable.  Symbols, functions, accessors, proxies and cyclic structures
    are outside this universe. *)
Module Js.

Record SafeInteger := SafeInt {
  integer : Z;
  integer_safe : Is_true (Z.abs integer <=? 9007199254740991)
}.

Inductive Value :=
| Undefined
| Null
| Boolean (b : bool)
| Number (n : SafeInteger)
| Str (s : string)
| Array (elements : list Value)
| Object (properties : list (string * Value)).

(** The exceptions the language itself raises in this file. *)
Inductive Exception :=
| TypeError.

(** A completion is a normal value or an abrupt one. *)
Inductive Completion (A : Type) :=
| Normal (a : A)
| Throw (e : Exception).
Arguments Normal {A} a.
Arguments Throw {A} e.

Definition bind {A B : Type} (c : Completion A) (f : A -> Completion B)
  : Completion B :=
  match c with
  | Normal a => f a
  | Throw e => Throw e
  end.

(** [typeof v === 'string'] *)
Definition is_string (v : Value) : bool :=
  match v with Str _ => true | _ => false end.

(** [v === null || v === undefined] *)
Definition is_nullish (v : Value) : bool :=
  match v with Undefined | Null => true | _ => false end.

(** [Array.isArray(v)] *)
Definition isArray (v : Value) : bool :=
  match v with Array _ => true | _ => false end.

(** ToBoolean: the falsy values are undefined, null, false, 0 and the
    empty string. *)
Definition truthy (v : Value) : bool :=
  match v with
  | Undefined | Null => false
  | Boolean b => b
  | Number n => negb (integer n =? 0)
  | Str s => negb (String.eqb s "")
  | Array _ | Object _ => true
  end.

(** [a || b] *)
Definition logical_or (a b : Value) : Value := if truthy a then a else b.

(** The first entry of a property list under a key. *)
Fixpoint lookup_property (key : string) (properties : list (string * Value))
  : option Value :=
  match properties with
  | [] => None
  | (k, v) :: rest =>
      if String.eqb k key then Some v else lookup_property key rest
  end.

Definition has_own_property (key : string)
  (properties : list (string * Value)) : bool :=
  match lookup_property key properties with
  | Some _ => true
  | None => false
  end.

(** [v.key]: reading a property of null or undefined raises a TypeError;
    primitives and arrays have no such data property (only names that
    are not built in are read here); a missing property is undefined. *)
Definition get (v : Value) (key : string) : Completion Value :=
  match v with
  | Undefined | Null => Throw TypeError
  | Object properties =>
      Normal (default Undefined (lookup_property key properties))
  | Boolean _ | Number _ | Str _ | Array _ => Normal Undefined
  end.

(** ToString.  An array is its elements joined with a comma, undefined
    and null elements giving the empty string, and raises where an
    element does.  An object is converted by its [toString] method: the
    inherited one gives [[object Object]]; an own [toString] property
    hides it and, no value being callable, is skipped, after which
    [valueOf], own or inherited, gives no primitive either, and the
    conversion raises a TypeError. *)
Fixpoint toString (v : Value) : Completion string :=
  match v with
  | Undefined => Normal "undefined"
  | Null => Normal "null"
  | Boolean true => Normal "true"
  | Boolean false => Normal "false"
  | Number n => Normal (pretty (integer n))
  | Str s => Normal s
  | Array elements =>
      bind
        ((fix each (l : list Value) : Completion (list string) :=
            match l with
            | [] => Normal []
            | x :: rest =>
                bind (if is_nullish x then Normal "" else toString x)
                  (fun s => bind (each rest) (fun ss => Normal (s :: ss)))
            end) elements)
        (fun strings => Normal (String.concat "," strings))
  | Object properties =>
      if has_own_property "toString" properties then Throw TypeError
      else Normal "[object Object]"
  end.

(** [Array.prototype.join]: the elements are converted from left to
    right, undefined and null giving the empty string. *)
Definition join_element (v : Value) : Completion string :=
  if is_nullish v then Normal "" else toString v.

Fixpoint join_elements (elements : list Value) : Completion (list string) :=
  match elements with
  | [] => Normal []
  | x :: rest =>
      bind (join_element x)
        (fun s => bind (join_elements rest) (fun ss => Normal (s :: ss)))
  end.

Definition join (elements : list Value) (separator : string)
  : Completion string :=
  bind (join_elements elements)
    (fun strings => Normal (String.concat separator strings)).

End Js.

Import Js.

#[export] Instance completion_ret : MRet Completion := @Normal.
#[export] Instance completion_bind : MBind Completion :=
  fun A B (f : A -> Completion B) (c : Completion A) => bind c f.
(** ** The collaborators of the filter *)

(** [HttpStatus] of @nestjs/common, the codes the filter names. *)
Module HttpStatus.
Definition BAD_REQUEST : Z := 400.
Definition UNAUTHORIZED : Z := 401.
Definition FORBIDDEN : Z := 403.
Definition NOT_FOUND : Z := 404.
Definition CONFLICT : Z := 409.
Definition GONE : Z := 410.
Definition PAYLOAD_TOO_LARGE : Z := 413.
Definition UNSUPPORTED_MEDIA_TYPE : Z := 415.
Definition UNPROCESSABLE_ENTITY : Z := 422.
Definition INTERNAL_SERVER_ERROR : Z := 500.
Definition NOT_IMPLEMENTED : Z := 501.
Definition SERVICE_UNAVAILABLE : Z := 503.
End HttpStatus.

(** The [name], [message] and [stack] every instance of [Error] has. *)
Record ErrorFields := {
  name : string;
  message : string;
  stack : option string
}.

(** [HttpException] of @nestjs/common: an [Error] with a status and the
    response it was built from.  The response is declared as a string or
    an object, and nothing checks it at run time, so it is any value. *)
Record HttpException := {
  getStatus : Z;
  getResponse : Value;
  http_error : ErrorFields
}.

(** Modelled from the spec: the classes of [./errors] are not part of the
    sources.  [EnvUndefinedError] is an [Error] that is no [HttpException],
    and the two wrapping classes hold the value they wrap.  [PlainError]
    is an instance of [Error] that is neither an [HttpException] nor an
    [EnvUndefinedError]. *)
Inductive ErrorObject :=
| HttpExceptionInst (e : HttpException)
| EnvUndefinedErrorInst (f : ErrorFields)
| CustomUnExpectedErrorInst (f : ErrorFields) (error : ErrorObject)
| CustomUndefinedErrorInst (f : ErrorFields) (error : Value)
| PlainError (f : ErrorFields).

(** [exception: unknown]: an instance of [Error] or any other value. *)
Inductive Unknown :=
| Err (e : ErrorObject)
| Val (v : Value).

Definition fields (e : ErrorObject) : ErrorFields :=
  match e with
  | HttpExceptionInst e => http_error e
  | EnvUndefinedErrorInst f => f
  | CustomUnExpectedErrorInst f _ => f
  | CustomUndefinedErrorInst f _ => f
  | PlainError f => f
  end.

Definition instanceof_HttpException (x : Unknown) : bool :=
  match x with Err (HttpExceptionInst _) => true | _ => false end.

Definition instanceof_EnvUndefinedError (x : Unknown) : bool :=
  match x with Err (EnvUndefinedErrorInst _) => true | _ => false end.

Definition instanceof_Error (x : Unknown) : bool :=
  match x with Err _ => true | Val _ => false end.

(** Modelled from the spec: the constants of
    [constants/http.response-info.constants] and
    [constants/extra.response-info.constants] are not part of the sources.
    A [ResponseInfo] is one of the fourteen constants the filter imports;
    the twelve HTTP ones carry the status code of their name, as the
    spec's table pairs them. *)
Inductive ResponseInfo :=
| BAD_REQUEST
| UNAUTHORIZED
| FORBIDDEN
| NOT_FOUND
| CONFLICT
| GONE
| PAYLOAD_TOO_LARGE
| UNSUPPORTED_MEDIA_TYPE
| UNPROCESSABLE_ENTITY
| INTERNAL_SERVER_ERROR
| NOT_IMPLEMENTED
| SERVICE_UNAVAILABLE
| UNEXPECTED_ERROR
| UNDEFINED_ERROR.

(** Modelled from the spec: [GlobalErrorDto] and [BaseResponse] are not
    part of the sources; the envelope is
    [{ requestId, responseInfo, error: { message } }]. *)
Record GlobalErrorDto := {
  dto_message : Value
}.

Record BaseResponse := {
  requestId : string;
  responseInfo : ResponseInfo;
  error : GlobalErrorDto
}.

Definition GlobalErrorDto_create (message : Value) : GlobalErrorDto :=
  {| dto_message := message |}.

Definition BaseResponse_create (requestId : string) (info : ResponseInfo)
  (data : GlobalErrorDto) : BaseResponse :=
  {| requestId := requestId; responseInfo := info; error := data |}.

(** The logger keeps the calls made to it. *)
Inductive LogLevel :=
| LevelLog
| LevelError
| LevelWarn
| LevelDebug
| LevelVerbose.

Record LogEntry := {
  log_level : LogLevel;
  log_message : string;
  log_stack : option string;
  log_error : option ErrorObject
}.

(** What the filter acts on: the log and the response channel, on which
    [response.status(code).json(body)] leaves a status code and a body. *)
Record World := {
  logs : list LogEntry;
  written : list (Z * BaseResponse)
}.

(** Code that runs in a world and completes normally or abruptly. *)
Definition Eff (A : Type) : Type := World -> Completion A * World.

#[export] Instance eff_ret : MRet Eff := fun A (a : A) w => (Normal a, w).
#[export] Instance eff_bind : MBind Eff :=
  fun A B (f : A -> Eff B) (c : Eff A) w =>
    match c w with
    | (Normal a, w') => f a w'
    | (Throw e, w') => (Throw e, w')
    end.

Definition lift {A : Type} (c : Completion A) : Eff A := fun w => (c, w).

(** [this.logger.error(message)] and
    [this.logger.error(message, stack, error)] *)
Definition logger_error (message : string) (stack : option string)
  (error : option ErrorObject) : Eff unit :=
  fun w =>
    (Normal tt,
     {| logs := logs w ++ [ {| log_level := LevelError; log_message := message;
                               log_stack := stack; log_error := error |} ];
        written := written w |}).

(** [response.status(code).json(body)] *)
Definition response_status_json (code : Z) (body : BaseResponse) : Eff unit :=
  fun w => (Normal tt, {| logs := logs w; written := written w ++ [(code, body)] |}).

(** [a || b] on strings and on an optional string: the empty string and
    undefined are falsy. *)
Definition string_or (a b : string) : string :=
  if String.eqb a "" then b else a.

Definition optional_string_or (a : option string) (b : string) : string :=
  match a with
  | Some s => string_or s b
  | None => b
  end.

(** What the sources do not fix: the status codes of the two extra
    constants, and the fields the constructors of the two wrapping classes
    of [./errors] give their instances. *)
Class Collaborators := {
  UNEXPECTED_ERROR_status : Z;
  UNDEFINED_ERROR_status : Z;
  CustomUnExpectedError_fields : ErrorObject -> ErrorFields;
  CustomUndefinedError_fields : Value -> ErrorFields
}.

(** ** The filter *)
Section GlobalExceptionsFilter.

Context {collaborators : Collaborators}.

(** Modelled from the spec: the [status] field of the constants, which
    are not part of the sources; each HTTP constant carries the code the
    spec's table maps to it. *)
Definition status (info : ResponseInfo) : Z :=
  match info with
  | BAD_REQUEST => 400
  | UNAUTHORIZED => 401
  | FORBIDDEN => 403
  | NOT_FOUND => 404
  | CONFLICT => 409
  | GONE => 410
  | PAYLOAD_TOO_LARGE => 413
  | UNSUPPORTED_MEDIA_TYPE => 415
  | UNPROCESSABLE_ENTITY => 422
  | INTERNAL_SERVER_ERROR => 500
  | NOT_IMPLEMENTED => 501
  | SERVICE_UNAVAILABLE => 503
  | UNEXPECTED_ERROR => UNEXPECTED_ERROR_status
  | UNDEFINED_ERROR => UNDEFINED_ERROR_status
  end.

(** HTTP error handling: the category and the message of an exception. *)
Definition getHttpErrorInfo (exception : HttpException)
  : Completion (ResponseInfo * Value) :=
  let status := getStatus exception in
  let exceptionResponse := getResponse exception in
  message ←
    (if is_string exceptionResponse then mret exceptionResponse
     else
       m ← get exceptionResponse "message";
       mret (logical_or m (Str (message (http_error exception)))));
  if status =? HttpStatus.BAD_REQUEST then
    let exceptionResponse := getResponse exception in
    m ← get exceptionResponse "message";
    message ←
      match m with
      | Array elements => s ← join elements ", "; mret (Str s)
      | _ => mret message
      end;
    mret (BAD_REQUEST, message)
  else if status =? HttpStatus.UNAUTHORIZED then mret (UNAUTHORIZED, message)
  else if status =? HttpStatus.FORBIDDEN then mret (FORBIDDEN, message)
  else if status =? HttpStatus.NOT_FOUND then mret (NOT_FOUND, message)
  else if status =? HttpStatus.CONFLICT then mret (CONFLICT, message)
  else if status =? HttpStatus.GONE then mret (GONE, message)
  else if status =? HttpStatus.PAYLOAD_TOO_LARGE then
    mret (PAYLOAD_TOO_LARGE, message)
  else if status =? HttpStatus.UNSUPPORTED_MEDIA_TYPE then
    mret (UNSUPPORTED_MEDIA_TYPE, message)
  else if status =? HttpStatus.UNPROCESSABLE_ENTITY then
    mret (UNPROCESSABLE_ENTITY, message)
  else if status =? HttpStatus.INTERNAL_SERVER_ERROR then
    mret (INTERNAL_SERVER_ERROR, message)
  else if status =? HttpStatus.NOT_IMPLEMENTED then
    mret (NOT_IMPLEMENTED, message)
  else if status =? HttpStatus.SERVICE_UNAVAILABLE then
    mret (SERVICE_UNAVAILABLE, message)
  else mret (INTERNAL_SERVER_ERROR, message).

Definition isHandledError (exception : Unknown) : bool :=
  if instanceof_HttpException exception
     || instanceof_EnvUndefinedError exception
  then true
  else false.

(** [new CustomUnExpectedError(error)] *)
Definition getUnExpectedError (error : ErrorObject) : ErrorObject :=
  let unExError :=
    CustomUnExpectedErrorInst (CustomUnExpectedError_fields error) error in
  unExError.

(** [new CustomUndefinedError(error)] *)
Definition getUnDefinedError (error : Value) : ErrorObject :=
  let unDefError :=
    CustomUndefinedErrorInst (CustomUndefinedError_fields error) error in
  unDefError.

(** The first test is [isHandledError], the second [instanceof Error]; a
    handled error is an instance of [Error], which is what lets the
    source return it under that type. *)
Definition handleException (exception : Unknown) : ErrorObject :=
  match isHandledError exception, exception with
  | true, Err e => e
  | false, Err e => getUnExpectedError e
  | _, Val v => getUnDefinedError v
  end.

(** [GlobalExceptionsFilter.catch], with the per-request store of
    [ClsService] as a map from keys to strings.  The template literal of
    the last [logger.error] converts [errMessage] to a string before the
    logger is called. *)
Definition catch (cls : gmap string string) (exception : Unknown) : Eff unit :=
  let handledException := handleException exception in
  let errName := string_or (name (fields handledException)) "Error" in
  let errMessage := Str "Internal server error" in
  let stack := optional_string_or (stack (fields handledException)) "" in
  let info := INTERNAL_SERVER_ERROR in
  let requestId := default "Request ID undefined" (cls !! "requestId") in
  '(info, errMessage) ←
    match handledException with
    | HttpExceptionInst e => lift (getHttpErrorInfo e)
    | CustomUnExpectedErrorInst _ _ =>
        logger_error
          ("Request Error - ID: " +:+ requestId +:+ ", UnDefinedError Occured")
          None None;;
        mret (UNEXPECTED_ERROR, errMessage)
    | CustomUndefinedErrorInst _ _ =>
        logger_error
          ("Request Error - ID: " +:+ requestId +:+ ", UnExpectedError Occured")
          None None;;
        mret (UNDEFINED_ERROR, errMessage)
    | _ => mret (info, errMessage)
    end;
  text ← lift (toString errMessage);
  logger_error
    ("Request Error - ID: " +:+ requestId +:+ ", " +:+ errName +:+ ": "
       +:+ text)
    (Some stack) (Some handledException);;
  let errDto := GlobalErrorDto_create errMessage in
  let errResponse := BaseResponse_create requestId info errDto in
  response_status_json (status (responseInfo errResponse)) errResponse.

End GlobalExceptionsFilter.

(** ** What the specification says, in its own terms *)

(** The fixed table of twelve entries from status code to category. *)
Definition status_table : gmap Z ResponseInfo :=
  list_to_map
    [ (400, BAD_REQUEST); (401, UNAUTHORIZED); (403, FORBIDDEN);
      (404, NOT_FOUND); (409, CONFLICT); (410, GONE);
      (413, PAYLOAD_TOO_LARGE); (415, UNSUPPORTED_MEDIA_TYPE);
      (422, UNPROCESSABLE_ENTITY); (500, INTERNAL_SERVER_ERROR);
      (501, NOT_IMPLEMENTED); (503, SERVICE_UNAVAILABLE) ].

(** [resolve(code)]: the mapped category, and [INTERNAL_SERVER_ERROR] for
    a code the table does not have. *)
Definition resolve (code : Z) : ResponseInfo :=
  default INTERNAL_SERVER_ERROR (status_table !! code).

(** The [message] field of a response body, undefined where there is
    none. *)
Definition message_field (response : Value) : Value :=
  match response with
  | Object properties => default Undefined (lookup_property "message" properties)
  | _ => Undefined
  end.

(** A value that can be converted to a string: ToString does not raise
    on it. *)
Definition printable (v : Value) : bool :=
  match toString v with
  | Normal _ => true
  | Throw _ => false
  end.

(** The message an [HttpException] brings: the response body when it is a
    string, else its message field when that is truthy, else the
    exception's own message. *)
Definition selected_message (e : HttpException) : Value :=
  if is_string (getResponse e) then getResponse e
  else if truthy (message_field (getResponse e))
       then message_field (getResponse e)
       else Str (message (http_error e)).

(** Message extraction for a recognized failure: the message the
    exception brings; under status 400 an array in the message field is
    joined with a comma and a space, which raises where the conversion of
    an element does. *)
Definition extracted_message (e : HttpException) : Completion Value :=
  match getStatus e =? 400, message_field (getResponse e) with
  | true, Array elements => s ← join elements ", "; mret (Str s)
  | _, _ => mret (selected_message e)
  end.

(** Under status 400 the message field is an array that cannot be
    converted to a string. *)
Definition join_raises (e : HttpException) : bool :=
  (getStatus e =? 400)
  && isArray (message_field (getResponse e))
  && negb (printable (message_field (getResponse e))).

(** The text of an element of an array of primitives, as [join] renders
    it; arrays and objects are not primitives. *)
Definition primitive_text (v : Value) : option string :=
  match v with
  | Undefined | Null => Some ""
  | Boolean true => Some "true"
  | Boolean false => Some "false"
  | Number n => Some (pretty (integer n))
  | Str s => Some s
  | Array _ | Object _ => None
  end.

(** The three variants of a classified error. *)
Inductive Variant :=
| Recognized
| UnexpectedWrapped
| UndefinedWrapped.

Definition has_variant (v : Variant) (e : ErrorObject) : bool :=
  match v, e with
  | Recognized, (HttpExceptionInst _ | EnvUndefinedErrorInst _) => true
  | UnexpectedWrapped, CustomUnExpectedErrorInst _ _ => true
  | UndefinedWrapped, CustomUndefinedErrorInst _ _ => true
  | _, _ => false
  end.

(** The variant the classification algorithm of the spec picks. *)
Definition classified_as (x : Unknown) : Variant :=
  if instanceof_HttpException x || instanceof_EnvUndefinedError x
  then Recognized
  else if instanceof_Error x then UnexpectedWrapped
  else UndefinedWrapped.

(** The inputs on which the filter raises: an [HttpException] whose
    response body is null or undefined, or whose message cannot be
    converted to a string. *)
Definition raises (x : Unknown) : bool :=
  match x with
  | Err (HttpExceptionInst e) =>
      is_nullish (getResponse e) || negb (printable (selected_message e))
  | _ => false
  end.

(** The correlation identifier of a request. *)
Definition correlation_id (cls : gmap string string) : string :=
  match cls !! "requestId" with
  | Some id => id
  | None => "Request ID undefined"
  end.

(** The log entries and the responses a run adds to a world. *)
Definition new_logs (before after : World) : list LogEntry :=
  drop (length (logs before)) (logs after).

Definition new_written (before after : World) : list (Z * BaseResponse) :=
  drop (length (written before)) (written after).

(** A string that starts with another. *)
Definition starts_with (prefix s : string) : Prop :=
  exists rest, s = prefix +:+ rest.

(** The codes the table maps. *)
Definition mapped_codes : list Z :=
  [400; 401; 403; 404; 409; 410; 413; 415; 422; 500; 501; 503].

(** The category of a failure: the table's for an [HttpException], the
    default one for the environment-configuration error, the dedicated
    ones for any other error and for a value that is no error. *)
Definition category_of (x : Unknown) : ResponseInfo :=
  match x with
  | Err (HttpExceptionInst e) => resolve (getStatus e)
  | Err (EnvUndefinedErrorInst _) => INTERNAL_SERVER_ERROR
  | Err _ => UNEXPECTED_ERROR
  | Val _ => UNDEFINED_ERROR
  end.

(** The outward message of a failure: the extracted one for an
    [HttpException], the generic one for anything else. *)
Definition outward_message (x : Unknown) : Completion Value :=
  match x with
  | Err (HttpExceptionInst e) =>
      if is_nullish (getResponse e) then Throw TypeError
      else extracted_message e
  | _ => mret (Str "Internal server error")
  end.

(** Whether the extracted message of an [HttpException] is a string: the
    response body is one, or its message field is falsy (the exception's
    own message is used) or a string, or is an array under status 400. *)
Definition extracts_string (e : HttpException) : bool :=
  is_string (getResponse e)
  || negb (truthy (message_field (getResponse e)))
  || is_string (message_field (getResponse e))
  || ((getStatus e =? 400) && isArray (message_field (getResponse e))).

(** The envelope [{ requestId, responseInfo, error: { message } }]. *)
Definition envelope (id : string) (info : ResponseInfo) (outward : Value)
  : BaseResponse :=
  {| requestId := id;
     responseInfo := info;
     error := {| dto_message := outward |} |}.

(** The entry logged last: its text embeds the correlation identifier, the
    name of the classified error and the text of the outward message; the
    stack and the classified error come with it. *)
Definition final_entry (id : string) (classified : ErrorObject)
  (text : string) : LogEntry :=
  {| log_level := LevelError;
     log_message :=
       "Request Error - ID: " +:+ id +:+ ", "
         +:+ string_or (name (fields classified)) "Error" +:+ ": "
         +:+ text;
     log_stack := Some (optional_string_or (stack (fields classified)) "");
     log_error := Some classified |}.

(** ** Sample collaborators and inputs *)

Definition sample_collaborators : Collaborators :=
  {| UNEXPECTED_ERROR_status := 500;
     UNDEFINED_ERROR_status := 500;
     CustomUnExpectedError_fields error :=
       {| name := "CustomUnExpectedError";
          message := message (fields error);
          stack := stack (fields error) |};
     CustomUndefinedError_fields error :=
       {| name := "CustomUndefinedError";
          message := "Undefined Error";
          stack := None |} |}.

Definition sample_catch : gmap string string -> Unknown -> Eff unit :=
  @catch sample_collaborators.

Definition empty_world : World := {| logs := []; written := [] |}.

(** [new HttpException(response, code)], whose [message] the constructor
    derives from the response. *)
Definition http_exception (code : Z) (response : Value) (own : string)
  : HttpException :=
  {| getStatus := code;
     getResponse := response;
     http_error :=
       {| name := "HttpException"; message := own; stack := Some "at handler" |} |}.

(** [new HttpException({ message: ['a required', 'b required'],
    error: 'Bad Request', statusCode: 400 }, 400)] *)
Definition validation_failure : HttpException :=
  http_exception 400
    (Object [ ("message", Array [Str "a required"; Str "b required"]);
              ("error", Str "Bad Request");
              ("statusCode", Number (SafeInt 400 I)) ])
    "Http Exception".

(** [new HttpException({ message: ['a required', 'b required'],
    error: 'Unprocessable Entity', statusCode: 422 }, 422)] *)
Definition unprocessable_failure : HttpException :=
  http_exception 422
    (Object [ ("message", Array [Str "a required"; Str "b required"]);
              ("error", Str "Unprocessable Entity");
              ("statusCode", Number (SafeInt 422 I)) ])
    "Http Exception".

(** [new HttpException({ message: 'Not Found', statusCode: 404 }, 404)] *)
Definition not_found_failure : HttpException :=
  http_exception 404
    (Object [ ("message", Str "Not Found");
              ("statusCode", Number (SafeInt 404 I)) ])
    "Not Found".

(** [new HttpException(null, 404)] *)
Definition null_response_failure : HttpException :=
  http_exception 404 Null "Http Exception".

(** [new HttpException(undefined, 400)] *)
Definition undefined_response_failure : HttpException :=
  http_exception 400 Undefined "Http Exception".

(** [new HttpException({ message: { toString: 1 } }, 404)] *)
Definition unprintable_failure : HttpException :=
  http_exception 404
    (Object [ ("message", Object [("toString", Number (SafeInt 1 I))]) ])
    "Http Exception".

(** [new HttpException({ message: [{ toString: 1 }] }, 400)] *)
Definition unjoinable_failure : HttpException :=
  http_exception 400
    (Object [ ("message",
               Array [Object [("toString", Number (SafeInt 1 I))]]) ])
    "Http Exception".

(** [new HttpException("I'm a teapot", 418)] *)
Definition teapot_failure : HttpException :=
  http_exception 418 (Str "I'm a teapot") "I'm a teapot".

(** An environment-configuration error. *)
Definition env_failure : ErrorFields :=
  {| name := "EnvUndefinedError";
     message := "DB_HOST is not defined";
     stack := Some "at config" |}.
(** ** Properties *)

(** *** The table and the switch *)

Lemma resolve_mapped :
  resolve 400 = BAD_REQUEST /\ resolve 401 = UNAUTHORIZED /\
  resolve 403 = FORBIDDEN /\ resolve 404 = NOT_FOUND /\
  resolve 409 = CONFLICT /\ resolve 410 = GONE /\
  resolve 413 = PAYLOAD_TOO_LARGE /\ resolve 415 = UNSUPPORTED_MEDIA_TYPE /\
  resolve 422 = UNPROCESSABLE_ENTITY /\ resolve 500 = INTERNAL_SERVER_ERROR /\
  resolve 501 = NOT_IMPLEMENTED /\ resolve 503 = SERVICE_UNAVAILABLE.
Proof. repeat split; reflexivity. Qed.

Lemma resolve_unmapped (code : Z) :
  code ∉ mapped_codes ->
  resolve code = INTERNAL_SERVER_ERROR.
Proof.
  unfold mapped_codes. intros Hout. unfold resolve, status_table.
  cbn [list_to_map foldr uncurry fst snd].
  rewrite !lookup_insert_ne, lookup_empty; [reflexivity | ..];
    intros Heq; apply Hout; rewrite <- Heq; set_solver.
Qed.

(** Reading the message field never raises on a response body that is not
    null or undefined. *)
Lemma get_message_field (response : Value) :
  is_nullish response = false ->
  get response "message" = Normal (message_field response).
Proof. destruct response; simpl; intros H; try discriminate H; reflexivity. Qed.

Lemma message_field_of_get (response field : Value) :
  get response "message" = Normal field ->
  is_nullish response = false /\ message_field response = field.
Proof.
  destruct response; simpl; intros H; try discriminate H;
    inversion H; auto.
Qed.

Ltac case_status code :=
  destruct (Z.eqb_spec code HttpStatus.BAD_REQUEST) as [->|];
  [|destruct (Z.eqb_spec code HttpStatus.UNAUTHORIZED) as [->|];
  [|destruct (Z.eqb_spec code HttpStatus.FORBIDDEN) as [->|];
  [|destruct (Z.eqb_spec code HttpStatus.NOT_FOUND) as [->|];
  [|destruct (Z.eqb_spec code HttpStatus.CONFLICT) as [->|];
  [|destruct (Z.eqb_spec code HttpStatus.GONE) as [->|];
  [|destruct (Z.eqb_spec code HttpStatus.PAYLOAD_TOO_LARGE) as [->|];
  [|destruct (Z.eqb_spec code HttpStatus.UNSUPPORTED_MEDIA_TYPE) as [->|];
  [|destruct (Z.eqb_spec code HttpStatus.UNPROCESSABLE_ENTITY) as [->|];
  [|destruct (Z.eqb_spec code HttpStatus.INTERNAL_SERVER_ERROR) as [->|];
  [|destruct (Z.eqb_spec code HttpStatus.NOT_IMPLEMENTED) as [->|];
  [|destruct (Z.eqb_spec code HttpStatus.SERVICE_UNAVAILABLE) as [->|]
  ]]]]]]]]]]].

(** *** Conversion to a string *)

Lemma toString_array (elements : list Value) :
  toString (Array elements) = join elements ",".
Proof. reflexivity. Qed.

Lemma printable_normal (v : Value) :
  printable v = true <-> exists text, toString v = Normal text.
Proof.
  unfold printable. destruct (toString v); split; eauto; try discriminate.
  intros [text Htext]. discriminate Htext.
Qed.

Lemma printable_throw (v : Value) :
  printable v = false <-> toString v = Throw TypeError.
Proof.
  unfold printable. destruct (toString v) as [|[]]; split;
    solve [reflexivity | discriminate].
Qed.

(** An object is converted unless it has a [toString] property of its
    own. *)
Lemma printable_object (properties : list (string * Value)) :
  printable (Object properties) = negb (has_own_property "toString" properties).
Proof.
  unfold printable. simpl.
  destruct (has_own_property "toString" properties); reflexivity.
Qed.

(** An array is converted when each element that is not undefined or null
    is. *)
Lemma printable_array (elements : list Value) :
  printable (Array elements) =
  forallb (fun x => is_nullish x || printable x) elements.
Proof.
  unfold printable at 1. rewrite toString_array. unfold join.
  induction elements as [|x rest IH]; [reflexivity|].
  simpl. unfold join_element, printable.
  destruct (is_nullish x); simpl.
  - destruct (join_elements rest); simpl in *; exact IH.
  - destruct (toString x); simpl; [|reflexivity].
    destruct (join_elements rest); simpl in *; exact IH.
Qed.

(** Joining raises exactly where the conversion of the array does,
    whatever the separator. *)
Lemma join_printable (elements : list Value) (separator : string) :
  printable (Array elements) = true ->
  exists strings,
    join_elements elements = Normal strings
    /\ join elements separator = Normal (String.concat separator strings).
Proof.
  unfold printable. rewrite toString_array. unfold join.
  destruct (join_elements elements); simpl; [eauto|discriminate].
Qed.

Lemma join_unprintable (elements : list Value) (separator : string) :
  printable (Array elements) = false ->
  join elements separator = Throw TypeError.
Proof.
  unfold printable. rewrite toString_array. unfold join.
  destruct (join_elements elements) as [|[]]; simpl;
    [discriminate|reflexivity].
Qed.

(** Joining an array of strings is concatenating them with the separator
    in between. *)
Lemma join_strings (elements : list string) (separator : string) :
  join (map Str elements) separator =
  Normal (String.concat separator elements).
Proof.
  unfold join.
  assert (Hall : join_elements (map Str elements) = Normal elements).
  { induction elements as [|s l IH]; simpl; [|rewrite IH]; reflexivity. }
  rewrite Hall. reflexivity.
Qed.

(** *** [getHttpErrorInfo] *)

(** The message of lines 71 to 74. *)
Lemma selected_message_or (e : HttpException) :
  selected_message e =
  if is_string (getResponse e) then getResponse e
  else logical_or (message_field (getResponse e))
         (Str (message (http_error e))).
Proof. reflexivity. Qed.

Lemma selected_message_array (e : HttpException) (elements : list Value) :
  message_field (getResponse e) = Array elements ->
  selected_message e = Array elements.
Proof.
  intros Hfield. unfold selected_message. rewrite Hfield.
  destruct (getResponse e); simpl in *; try discriminate Hfield; reflexivity.
Qed.

(** On a response body that is not null or undefined the function returns
    the category of the table with the extracted message, or raises as
    the extraction does. *)
Lemma getHttpErrorInfo_returns (e : HttpException) :
  is_nullish (getResponse e) = false ->
  getHttpErrorInfo e =
    (m ← extracted_message e; mret (resolve (getStatus e), m)).
Proof.
  intros Hok. unfold getHttpErrorInfo, extracted_message.
  rewrite (get_message_field _ Hok).
  pose proof (selected_message_or e) as Hsel.
  destruct e as [code response own]; simpl in *.
  assert (Hfield : is_string response = true ->
                   message_field response = Undefined)
    by (destruct response; simpl; intros H; try discriminate H; reflexivity).
  case_status code.
  13: { rewrite resolve_unmapped.
        - replace (code =? 400) with false
            by (symmetry; apply Z.eqb_neq; assumption).
          rewrite Hsel. destruct (is_string response); reflexivity.
        - unfold HttpStatus.BAD_REQUEST, HttpStatus.UNAUTHORIZED,
            HttpStatus.FORBIDDEN, HttpStatus.NOT_FOUND, HttpStatus.CONFLICT,
            HttpStatus.GONE, HttpStatus.PAYLOAD_TOO_LARGE,
            HttpStatus.UNSUPPORTED_MEDIA_TYPE,
            HttpStatus.UNPROCESSABLE_ENTITY,
            HttpStatus.INTERNAL_SERVER_ERROR, HttpStatus.NOT_IMPLEMENTED,
            HttpStatus.SERVICE_UNAVAILABLE, mapped_codes in *.
          rewrite !not_elem_of_cons; repeat split; try assumption.
          apply not_elem_of_nil. }
  all: rewrite Hsel; destruct (is_string response) eqn:Hstr;
    [ rewrite (Hfield eq_refl) | destruct (message_field response) ];
    reflexivity.
Qed.

(** On a response body that is null or undefined it raises. *)
Lemma getHttpErrorInfo_raises (e : HttpException) :
  is_nullish (getResponse e) = true ->
  getHttpErrorInfo e = Throw TypeError.
Proof.
  intros Hbad. unfold getHttpErrorInfo.
  destruct (getResponse e); simpl in *; try discriminate Hbad; reflexivity.
Qed.

(** The extraction raises exactly where the join of line 81 does. *)
Lemma extracted_message_cases (e : HttpException) :
  if join_raises e then extracted_message e = Throw TypeError
  else exists m,
      extracted_message e = Normal m
      /\ (printable (selected_message e) = true -> printable m = true)
      /\ (printable (selected_message e) = false -> m = selected_message e).
Proof.
  unfold join_raises, extracted_message.
  destruct (getStatus e =? 400); simpl; [|eauto 6].
  destruct (message_field (getResponse e)) eqn:Hfield; simpl; eauto 6.
  destruct (printable (Array elements)) eqn:Hprint; simpl.
  - destruct (join_printable elements ", " Hprint) as (ss & _ & ->).
    simpl. eexists. split; [reflexivity|].
    rewrite (selected_message_array _ _ Hfield).
    split; [reflexivity|]. intros Hno. rewrite Hprint in Hno. discriminate Hno.
  - rewrite (join_unprintable _ _ Hprint). reflexivity.
Qed.
Lemma join_raises_selected (e : HttpException) :
  join_raises e = true -> printable (selected_message e) = false.
Proof.
  unfold join_raises. intros Hjoin.
  apply andb_prop in Hjoin as [Hjoin Hprint].
  apply andb_prop in Hjoin as [_ Harray].
  destruct (message_field (getResponse e)) eqn:Hfield;
    try discriminate Harray.
  rewrite (selected_message_array _ _ Hfield).
  apply negb_true_iff. exact Hprint.
Qed.

(** C1: whatever ResponseInfo getHttpErrorInfo resolves for an
    HttpException is the category the fixed table gives its status code
    (BAD_REQUEST for 400, ..., SERVICE_UNAVAILABLE for 503) and
    INTERNAL_SERVER_ERROR for any other code; and it does resolve one for
    every HttpException whose response body is not null or undefined,
    unless under status 400 the message field is an array that cannot be
    converted to a string. *)
Theorem getHttpErrorInfo_category (e : HttpException) :
  (forall info m,
      getHttpErrorInfo e = Normal (info, m) -> info = resolve (getStatus e))
  /\ (is_nullish (getResponse e) = false ->
      join_raises e = false ->
      exists m, getHttpErrorInfo e = Normal (resolve (getStatus e), m)).
Proof.
  split.
  - intros info m Hrun. destruct (is_nullish (getResponse e)) eqn:Hnull.
    + rewrite (getHttpErrorInfo_raises _ Hnull) in Hrun. discriminate Hrun.
    + rewrite (getHttpErrorInfo_returns _ Hnull) in Hrun.
      destruct (extracted_message e); simpl in Hrun;
        [inversion Hrun; reflexivity | discriminate Hrun].
  - intros Hnull Hjoin. rewrite (getHttpErrorInfo_returns _ Hnull).
    pose proof (extracted_message_cases e) as Hcases.
    rewrite Hjoin in Hcases. destruct Hcases as (m & -> & _).
    exists m. reflexivity.
Qed.

(** A mapped category carries the code it is mapped from; the fallback
    carries 500. *)
Lemma status_resolve `{Collaborators} (code : Z) :
  status (resolve code) = if bool_decide (code ∈ mapped_codes) then code else 500.
Proof.
  case_bool_decide as Hin.
  - unfold mapped_codes in Hin. rewrite !elem_of_cons in Hin.
    rewrite elem_of_nil in Hin.
    repeat (destruct Hin as [-> | Hin]; [reflexivity|]). contradiction.
  - rewrite (resolve_unmapped _ Hin). reflexivity.
Qed.

Lemma drop_own_length {A : Type} (l k : list A) : drop (length l) (l ++ k) = k.
Proof. induction l as [|a l IH]; simpl; auto. Qed.

(** *** What a run of the filter does, input by input *)
Section Runs.

Context `{Collaborators}.
Variable cls : gmap string string.
Variable w : World.

Lemma catch_http (e : HttpException) (m : Value) (text : string) :
  is_nullish (getResponse e) = false ->
  extracted_message e = Normal m ->
  toString m = Normal text ->
  catch cls (Err (HttpExceptionInst e)) w =
    (Normal tt,
     {| logs := logs w ++
          [final_entry (correlation_id cls) (HttpExceptionInst e) text];
        written := written w ++
          [(status (resolve (getStatus e)),
            envelope (correlation_id cls) (resolve (getStatus e)) m)] |}).
Proof.
  intros Hok Hm Htext. unfold catch. simpl.
  unfold mbind, eff_bind, lift.
  rewrite (getHttpErrorInfo_returns _ Hok), Hm. simpl. rewrite Htext.
  reflexivity.
Qed.

Lemma catch_http_raises (e : HttpException) :
  raises (Err (HttpExceptionInst e)) = true ->
  catch cls (Err (HttpExceptionInst e)) w = (Throw TypeError, w).
Proof.
  simpl. intros Hraises. unfold catch. simpl.
  unfold mbind, eff_bind, lift.
  destruct (is_nullish (getResponse e)) eqn:Hnull.
  - rewrite (getHttpErrorInfo_raises _ Hnull). reflexivity.
  - simpl in Hraises. apply negb_true_iff in Hraises.
    rewrite (getHttpErrorInfo_returns _ Hnull).
    pose proof (extracted_message_cases e) as Hcases.
    destruct (join_raises e); [rewrite Hcases; reflexivity|].
    destruct Hcases as (m & -> & _ & Hsame). rewrite (Hsame Hraises).
    simpl. apply printable_throw in Hraises. rewrite Hraises. reflexivity.
Qed.

Lemma raises_false (e : HttpException) :
  raises (Err (HttpExceptionInst e)) = false ->
  is_nullish (getResponse e) = false
  /\ exists m text,
      extracted_message e = Normal m /\ toString m = Normal text.
Proof.
  simpl. intros Hraises. apply orb_false_elim in Hraises as [Hnull Hprint].
  apply negb_false_iff in Hprint. split; [exact Hnull|].
  pose proof (extracted_message_cases e) as Hcases.
  destruct (join_raises e) eqn:Hjoin.
  - rewrite (join_raises_selected _ Hjoin) in Hprint. discriminate Hprint.
  - destruct Hcases as (m & Hm & Hprintable & _).
    apply Hprintable, printable_normal in Hprint as [text Htext]. eauto.
Qed.

Lemma catch_env (f : ErrorFields) :
  catch cls (Err (EnvUndefinedErrorInst f)) w =
    (Normal tt,
     {| logs := logs w ++
          [final_entry (correlation_id cls) (EnvUndefinedErrorInst f)
             "Internal server error"];
        written := written w ++
          [(500, envelope (correlation_id cls) INTERNAL_SERVER_ERROR
                   (Str "Internal server error"))] |}).
Proof. reflexivity. Qed.

Lemma catch_error (e : ErrorObject) :
  isHandledError (Err e) = false ->
  catch cls (Err e) w =
    (Normal tt,
     {| logs := logs w ++
          [ {| log_level := LevelError;
               log_message :=
                 "Request Error - ID: " +:+ correlation_id cls
                   +:+ ", UnDefinedError Occured";
               log_stack := None;
               log_error := None |};
            final_entry (correlation_id cls) (getUnExpectedError e)
              "Internal server error" ];
        written := written w ++
          [(status UNEXPECTED_ERROR,
            envelope (correlation_id cls) UNEXPECTED_ERROR
              (Str "Internal server error"))] |}).
Proof.
  intros Hnot. unfold catch, handleException. rewrite Hnot. simpl.
  unfold mbind, eff_bind, logger_error, response_status_json, lift. simpl.
  rewrite <- app_assoc. reflexivity.
Qed.

Lemma catch_value (v : Value) :
  catch cls (Val v) w =
    (Normal tt,
     {| logs := logs w ++
          [ {| log_level := LevelError;
               log_message :=
                 "Request Error - ID: " +:+ correlation_id cls
                   +:+ ", UnExpectedError Occured";
               log_stack := None;
               log_error := None |};
            final_entry (correlation_id cls) (getUnDefinedError v)
              "Internal server error" ];
        written := written w ++
          [(status UNDEFINED_ERROR,
            envelope (correlation_id cls) UNDEFINED_ERROR
              (Str "Internal server error"))] |}).
Proof.
  unfold catch, handleException. simpl.
  unfold mbind, eff_bind, logger_error, response_status_json, lift. simpl.
  rewrite <- app_assoc. reflexivity.
Qed.

End Runs.

(** *** The filter on any input *)
Section Filter.

Context `{Collaborators}.

Lemma isHandledError_classified (x : Unknown) :
  isHandledError x = true <-> classified_as x = Recognized.
Proof.
  unfold isHandledError, classified_as.
  destruct (instanceof_HttpException x || instanceof_EnvUndefinedError x);
    [tauto|].
  destruct (instanceof_Error x); split; discriminate.
Qed.

(** A run on an input on which the filter does not raise: the entries
    logged and the response written. *)
Lemma catch_completes (cls : gmap string string) (x : Unknown) (w : World) :
  raises x = false ->
  exists extra m text,
    outward_message x = Normal m
    /\ toString m = Normal text
    /\ catch cls x w =
      (Normal tt,
       {| logs := logs w ++ extra ++
            [final_entry (correlation_id cls) (handleException x) text];
          written := written w ++
            [(status (category_of x),
              envelope (correlation_id cls) (category_of x) m)] |})
    /\ if isHandledError x then extra = []
       else exists label,
           extra = [ {| log_level := LevelError;
                        log_message :=
                          "Request Error - ID: " +:+ correlation_id cls
                            +:+ ", " +:+ label;
                        log_stack := None;
                        log_error := None |} ].
Proof.
  intros Hok.
  pose (extra_entry label :=
          {| log_level := LevelError;
             log_message :=
               "Request Error - ID: " +:+ correlation_id cls +:+ ", "
                 +:+ label;
             log_stack := None;
             log_error := None |}).
  destruct x as [e|v].
  - destruct e as [e|f|f inner|f inner|f].
    + destruct (raises_false e Hok) as (Hnull & m & text & Hm & Htext).
      exists [], m, text. simpl. rewrite Hnull.
      split; [exact Hm|]. split; [exact Htext|].
      split; [apply catch_http; assumption | reflexivity].
    + exists [], (Str "Internal server error"), "Internal server error".
      split; [reflexivity|]. split; [reflexivity|].
      split; [apply catch_env | reflexivity].
    + rewrite catch_error by reflexivity.
      exists [extra_entry "UnDefinedError Occured"],
        (Str "Internal server error"), "Internal server error".
      simpl. eauto 6.
    + rewrite catch_error by reflexivity.
      exists [extra_entry "UnDefinedError Occured"],
        (Str "Internal server error"), "Internal server error".
      simpl. eauto 6.
    + rewrite catch_error by reflexivity.
      exists [extra_entry "UnDefinedError Occured"],
        (Str "Internal server error"), "Internal server error".
      simpl. eauto 6.
  - rewrite catch_value.
    exists [extra_entry "UnExpectedError Occured"],
      (Str "Internal server error"), "Internal server error".
    simpl. eauto 6.
Qed.

(** A run on an input on which the filter raises: nothing is logged and
    nothing is written. *)
Lemma catch_raises (cls : gmap string string) (x : Unknown) (w : World) :
  raises x = true -> catch cls x w = (Throw TypeError, w).
Proof.
  intros Hraises. destruct x as [[e| | | |]|]; try discriminate Hraises.
  apply catch_http_raises. exact Hraises.
Qed.

Lemma new_written_app (w : World) (l : list LogEntry)
  (k : list (Z * BaseResponse)) :
  new_written w {| logs := l; written := written w ++ k |} = k.
Proof. apply drop_own_length. Qed.

Lemma new_logs_app (w : World) (l : list LogEntry)
  (k : list (Z * BaseResponse)) :
  new_logs w {| logs := logs w ++ l; written := k |} = l.
Proof. apply drop_own_length. Qed.

Lemma raises_unrecognized (x : Unknown) :
  instanceof_HttpException x = false -> raises x = false.
Proof.
  intros Hhttp. destruct x as [[]|]; try reflexivity. discriminate Hhttp.
Qed.

Lemma outward_message_generic (x : Unknown) (m : Value) :
  instanceof_HttpException x = false ->
  outward_message x = Normal m -> m = Str "Internal server error".
Proof.
  intros Hhttp Hm.
  destruct x as [[]|]; try discriminate Hhttp; inversion Hm; reflexivity.
Qed.

(** C2: for every input that is neither an HttpException nor the
    environment-configuration error, the filter writes one response whose
    message is exactly "Internal server error" and whose ResponseInfo is
    UNEXPECTED_ERROR when the input is an Error object and UNDEFINED_ERROR
    when it is not; the response is the same for every such input of the
    same kind, so nothing of the input, its message included, appears in
    the body. *)
Theorem catch_unrecognized_generic
  (cls : gmap string string) (x : Unknown) (w : World) :
  instanceof_HttpException x = false ->
  instanceof_EnvUndefinedError x = false ->
  let info := if instanceof_Error x then UNEXPECTED_ERROR else UNDEFINED_ERROR in
  exists w',
    catch cls x w = (Normal tt, w')
    /\ new_written w w' =
         [(status info,
           {| requestId := correlation_id cls;
              responseInfo := info;
              error := {| dto_message := Str "Internal server error" |} |})].
Proof.
  intros Hhttp Henv info.
  destruct (catch_completes cls x w (raises_unrecognized x Hhttp))
    as (extra & m & text & Hm & _ & Hrun & _).
  apply (outward_message_generic x m Hhttp) in Hm. subst m.
  eexists. split; [exact Hrun|]. rewrite new_written_app.
  destruct x as [[]|]; try discriminate Hhttp; try discriminate Henv;
    reflexivity.
Qed.

(** C3, amended: every recognized failure is kept as it is.  Where the
    filter does not raise, the written response of an HttpException
    carries the category the table gives its status code (the status set
    is its own code when the table maps it and 500 otherwise) and its
    extracted message, and that of the environment-configuration error
    carries INTERNAL_SERVER_ERROR and the generic message. *)
Theorem catch_recognized
  (cls : gmap string string) (x : Unknown) (w : World) :
  isHandledError x = true ->
  Err (handleException x) = x
  /\ (raises x = false ->
      exists w' code body,
        catch cls x w = (Normal tt, w')
        /\ new_written w w' = [(code, body)]
        /\ match x with
           | Err (HttpExceptionInst e) =>
               responseInfo body = resolve (getStatus e)
               /\ code = (if bool_decide (getStatus e ∈ mapped_codes)
                          then getStatus e else 500)
               /\ extracted_message e = Normal (dto_message (error body))
           | _ =>
               responseInfo body = INTERNAL_SERVER_ERROR
               /\ code = 500
               /\ dto_message (error body) = Str "Internal server error"
           end).
Proof.
  intros Hkept. split.
  - destruct x as [[]|]; try discriminate Hkept; reflexivity.
  - intros Hok.
    destruct (catch_completes cls x w Hok)
      as (extra & m & text & Hm & _ & Hrun & _).
    do 3 eexists. split; [exact Hrun|]. rewrite new_written_app.
    split; [reflexivity|].
    destruct x as [[e| | | |]|]; try discriminate Hkept; simpl.
    + rewrite status_resolve. simpl in Hm, Hok.
      apply orb_false_elim in Hok as [Hnull _]. rewrite Hnull in Hm. auto.
    + inversion Hm. auto.
Qed.

(** C4, amended: the filter raises a TypeError, having logged and written
    nothing, on an HttpException whose response body is null or undefined
    or whose message cannot be converted to a string; on every other
    input, null, undefined and an HttpException whose response body lacks
    the expected fields included, it completes without raising. *)
Theorem catch_completion
  (cls : gmap string string) (x : Unknown) (w : World) :
  if raises x
  then catch cls x w = (Throw TypeError, w)
  else exists w', catch cls x w = (Normal tt, w').
Proof.
  destruct (raises x) eqn:Hraises.
  - apply catch_raises. exact Hraises.
  - destruct (catch_completes cls x w Hraises)
      as (extra & m & text & _ & _ & Hrun & _).
    eauto.
Qed.

(** C5, amended: on every input on which the filter does not raise, the
    last entry it logs is at error level and holds the correlation
    identifier, the name of the classified error ("Error" when it has
    none), the text of the message written to the response, the stack of
    the classified error (the empty string when it has none) and the
    classified error itself.  For a recognized failure it is the only
    entry; for any other input one more error-level entry that names the
    correlation identifier comes before it. *)
Theorem catch_log_entries
  (cls : gmap string string) (x : Unknown) (w : World) :
  raises x = false ->
  exists (w' : World) (extra : list LogEntry) code body text,
    catch cls x w = (Normal tt, w')
    /\ new_written w w' = [(code, body)]
    /\ toString (dto_message (error body)) = Normal text
    /\ new_logs w w' =
         (extra ++
          [ {| log_level := LevelError;
               log_message :=
                 "Request Error - ID: " +:+ correlation_id cls +:+ ", "
                   +:+ string_or (name (fields (handleException x))) "Error"
                   +:+ ": " +:+ text;
               log_stack :=
                 Some (optional_string_or
                         (stack (fields (handleException x))) "");
               log_error := Some (handleException x) |} ])%list
    /\ if isHandledError x then extra = []
       else exists entry,
           extra = [entry]
           /\ log_level entry = LevelError
           /\ starts_with ("Request Error - ID: " +:+ correlation_id cls)
                (log_message entry).
Proof.
  intros Hok.
  destruct (catch_completes cls x w Hok)
    as (extra & m & text & _ & Htext & Hrun & Hextra).
  do 5 eexists. split; [exact Hrun|].
  rewrite new_written_app, new_logs_app.
  split; [reflexivity|]. split; [exact Htext|]. split; [reflexivity|].
  destruct (isHandledError x); [exact Hextra|].
  destruct Hextra as [label ->]. eexists. split; [reflexivity|].
  split; [reflexivity|]. exists (", " +:+ label). simpl.
  reflexivity.
Qed.

(** C6: for every HttpException with status 400 whose response body has a
    message field that is an array of strings, the outward message, the
    one getHttpErrorInfo returns and the one written to the response, is
    the elements joined with a comma and a space. *)
Theorem catch_joins_validation_messages
  (cls : gmap string string) (e : HttpException) (elements : list string)
  (w : World) :
  getStatus e = 400 ->
  get (getResponse e) "message" = Normal (Array (map Str elements)) ->
  getHttpErrorInfo e = Normal (BAD_REQUEST, Str (String.concat ", " elements))
  /\ exists w',
      catch cls (Err (HttpExceptionInst e)) w = (Normal tt, w')
      /\ new_written w w' =
           [(400,
             {| requestId := correlation_id cls;
                responseInfo := BAD_REQUEST;
                error :=
                  {| dto_message := Str (String.concat ", " elements) |} |})].
Proof.
  intros Hcode Hfield.
  apply message_field_of_get in Hfield as [Hok Hfield].
  assert (Hmsg : extracted_message e =
                 Normal (Str (String.concat ", " elements))).
  { unfold extracted_message. rewrite Hcode, Hfield. simpl.
    rewrite join_strings. reflexivity. }
  split.
  - rewrite (getHttpErrorInfo_returns _ Hok), Hcode, Hmsg. reflexivity.
  - eexists. split; [exact (catch_http cls w e _ _ Hok Hmsg eq_refl)|].
    rewrite new_written_app, Hcode. reflexivity.
Qed.

(** C7, amended: on every input on which the filter does not raise, it
    writes a single response, of body
    { requestId, responseInfo, error: { message } } with the correlation
    identifier as requestId, and the status code set on the response is
    responseInfo.status of that body.  The message is a string for every
    input that is not an HttpException, and for an HttpException whose
    response body is a string, or whose message field is falsy or a
    string, or is an array under status 400. *)
Theorem catch_envelope
  (cls : gmap string string) (x : Unknown) (w : World) :
  raises x = false ->
  exists w' body,
    catch cls x w = (Normal tt, w')
    /\ new_written w w' = [(status (responseInfo body), body)]
    /\ requestId body = correlation_id cls
    /\ (match x with
        | Err (HttpExceptionInst e) => extracts_string e
        | _ => true
        end = true ->
        is_string (dto_message (error body)) = true).
Proof.
  intros Hok.
  destruct (catch_completes cls x w Hok)
    as (extra & m & text & Hm & _ & Hrun & _).
  eexists. exists (envelope (correlation_id cls) (category_of x) m).
  split; [exact Hrun|]. rewrite new_written_app.
  split; [reflexivity|]. split; [reflexivity|]. simpl.
  destruct x as [[e| | | |]|]; try (inversion Hm; reflexivity).
  simpl in Hm, Hok. apply orb_false_elim in Hok as [Hnull _].
  rewrite Hnull in Hm. clear Hrun. revert Hm.
  unfold extracted_message, extracts_string, selected_message.
  destruct (getStatus e =? 400), (getResponse e) as [| | | | |l|ps];
    simpl; try (intros Hm; inversion Hm; reflexivity);
    destruct (default Undefined (lookup_property "message" ps))
      as [| |[]|n|s|l|]; simpl;
    try (intros Hm; inversion Hm; reflexivity);
    try discriminate;
    try (destruct (integer n =? 0); simpl; intros Hm Hs;
         solve [inversion Hm; reflexivity | discriminate Hs]);
    try (destruct (join l ", "); simpl; intros Hm; inversion Hm; reflexivity).
  all: destruct (String.eqb s ""); intros Hm; inversion Hm; reflexivity.
Qed.

(** C8: when the per-request store has no correlation identifier, every
    response the filter writes has the literal "Request ID undefined" as
    requestId and every entry it logs names that literal as the ID; and it
    does write one response and log at least one entry wherever it
    completes, while on an input on which it raises it writes and logs
    nothing. *)
Theorem catch_default_request_id
  (cls : gmap string string) (x : Unknown) (w : World) :
  cls !! "requestId" = None ->
  let w' := (catch cls x w).2 in
  Forall (fun r => requestId r.2 = "Request ID undefined") (new_written w w')
  /\ Forall (fun entry =>
               starts_with "Request Error - ID: Request ID undefined, "
                 (log_message entry))
       (new_logs w w')
  /\ if raises x
     then new_written w w' = [] /\ new_logs w w' = []
     else length (new_written w w') = 1%nat /\ new_logs w w' <> [].
Proof.
  intros Hunset w'. subst w'.
  assert (Hid : correlation_id cls = "Request ID undefined")
    by (unfold correlation_id; rewrite Hunset; reflexivity).
  destruct (raises x) eqn:Hraises.
  - rewrite catch_raises by exact Hraises. simpl.
    unfold new_written, new_logs. rewrite !drop_all. auto.
  - destruct (catch_completes cls x w Hraises)
      as (extra & m & text & _ & _ & -> & Hextra).
    simpl. rewrite new_written_app, new_logs_app, Hid in *.
    split; [repeat constructor|]. split.
    + apply Forall_app. split.
      * destruct (isHandledError x); [subst extra; constructor|].
        destruct Hextra as [label ->]. repeat constructor.
        exists label. reflexivity.
      * repeat constructor. eexists. reflexivity.
    + split; [reflexivity|]. destruct extra; discriminate.
Qed.

(** C9, amended: every input value is classified as exactly one variant,
    the one the classification algorithm names.  On every input on which
    the filter does not raise it resolves exactly one ResponseInfo: the
    table's category for an HttpException, with INTERNAL_SERVER_ERROR as
    the fallback for a status code the table does not map,
    INTERNAL_SERVER_ERROR for the environment-configuration error,
    UNEXPECTED_ERROR for any other error and UNDEFINED_ERROR for a value
    that is no error. *)
Theorem classification_total (x : Unknown) :
  (forall v, has_variant v (handleException x) = true <-> v = classified_as x)
  /\ (forall (cls : gmap string string) (w : World),
        raises x = false ->
        let resolves info :=
          exists w' code body,
            catch cls x w = (Normal tt, w')
            /\ new_written w w' = [(code, body)]
            /\ responseInfo body = info in
        resolves (category_of x)
        /\ forall info, resolves info -> info = category_of x)
  /\ (forall e, x = Err (HttpExceptionInst e) ->
        getStatus e ∉ mapped_codes -> category_of x = INTERNAL_SERVER_ERROR).
Proof.
  split; [|split].
  - intros v.
    destruct x as [[]|], v; simpl; split; intros Hv;
      solve [reflexivity | discriminate Hv].
  - intros cls w Hok resolves.
    destruct (catch_completes cls x w Hok)
      as (extra & m & text & _ & _ & Hrun & _).
    split.
    + do 3 eexists. split; [exact Hrun|]. rewrite new_written_app.
      split; reflexivity.
    + intros info (w' & code & body & Hrun' & Hwritten & <-).
      rewrite Hrun in Hrun'. inversion Hrun' as [Hw]. subst w'.
      rewrite new_written_app in Hwritten. inversion Hwritten. reflexivity.
  - intros e -> Hout. simpl. apply resolve_unmapped. exact Hout.
Qed.

(** C10: for every input that is an EnvUndefinedError and not an
    HttpException, the filter writes a response with ResponseInfo
    INTERNAL_SERVER_ERROR, status 500, whose message is exactly "Internal
    server error"; the error's own message is not surfaced. *)
Theorem catch_env_internal_error
  (cls : gmap string string) (x : Unknown) (w : World) :
  instanceof_EnvUndefinedError x = true ->
  instanceof_HttpException x = false ->
  exists w',
    catch cls x w = (Normal tt, w')
    /\ new_written w w' =
         [(500,
           {| requestId := correlation_id cls;
              responseInfo := INTERNAL_SERVER_ERROR;
              error := {| dto_message := Str "Internal server error" |} |})].
Proof.
  intros Henv _.
  destruct x as [[e|f| | |]|]; try discriminate Henv.
  eexists. split; [apply catch_env|]. apply new_written_app.
Qed.

End Filter.

(** ** The properties at work on the sample inputs *)

Lemma getHttpErrorInfo_category_witness :
  is_nullish (getResponse not_found_failure) = false
  /\ join_raises not_found_failure = false
  /\ exists m, getHttpErrorInfo not_found_failure = Normal (NOT_FOUND, m).
Proof.
  split; [reflexivity|]. split; [reflexivity|].
  exact (proj2 (getHttpErrorInfo_category not_found_failure) eq_refl eq_refl).
Defined.

Lemma catch_unrecognized_generic_witness :
  exists w',
    sample_catch ∅ (Val (Str "boom")) empty_world = (Normal tt, w')
    /\ new_written empty_world w' =
         [(500,
           {| requestId := "Request ID undefined";
              responseInfo := UNDEFINED_ERROR;
              error := {| dto_message := Str "Internal server error" |} |})].
Proof.
  exact (catch_unrecognized_generic (H := sample_collaborators)
           ∅ (Val (Str "boom")) empty_world eq_refl eq_refl).
Defined.

(** C3 as stated fails: the environment-configuration error is recognized
    and kept, and the response carries the generic message, not its own;
    an HttpException with status 418 is answered with status 500. *)
Lemma recognized_failures_not_verbatim :
  (isHandledError (Err (EnvUndefinedErrorInst env_failure)) = true
   /\ written
        (sample_catch ∅ (Err (EnvUndefinedErrorInst env_failure))
           empty_world).2 =
        [(500, envelope "Request ID undefined" INTERNAL_SERVER_ERROR
                 (Str "Internal server error"))]
   /\ Str "Internal server error" <> Str (message env_failure))
  /\ (isHandledError (Err (HttpExceptionInst teapot_failure)) = true
      /\ written
           (sample_catch ∅ (Err (HttpExceptionInst teapot_failure))
              empty_world).2 =
           [(500, envelope "Request ID undefined" INTERNAL_SERVER_ERROR
                    (Str "I'm a teapot"))]
      /\ 500 <> getStatus teapot_failure).
Proof. repeat split; try reflexivity; discriminate. Qed.

Lemma catch_recognized_witness :
  exists w' code body,
    sample_catch ∅ (Err (HttpExceptionInst not_found_failure)) empty_world =
      (Normal tt, w')
    /\ new_written empty_world w' = [(code, body)]
    /\ responseInfo body = NOT_FOUND
    /\ code = 404
    /\ Normal (Str "Not Found") = Normal (dto_message (error body)).
Proof.
  exact (proj2 (catch_recognized (H := sample_collaborators)
                  ∅ (Err (HttpExceptionInst not_found_failure)) empty_world
                  eq_refl)
           eq_refl).
Defined.

(** C4 as stated fails: on an HttpException whose response body is null
    the filter raises. *)
Lemma catch_raises_on_null_response :
  sample_catch ∅ (Err (HttpExceptionInst null_response_failure)) empty_world =
    (Throw TypeError, empty_world).
Proof. reflexivity. Qed.

(** C5 as stated fails: a thrown string is logged twice. *)
Lemma catch_logs_twice :
  length (logs (sample_catch ∅ (Val (Str "boom")) empty_world).2) = 2%nat
  /\ Forall (fun entry => log_level entry = LevelError)
       (logs (sample_catch ∅ (Val (Str "boom")) empty_world).2).
Proof. split; [reflexivity|]. repeat constructor. Qed.

Lemma catch_log_entries_witness :
  exists w',
    sample_catch ∅ (Err (HttpExceptionInst not_found_failure)) empty_world =
      (Normal tt, w')
    /\ map log_message (new_logs empty_world w') =
         ["Request Error - ID: Request ID undefined, HttpException: Not Found"].
Proof.
  destruct (catch_log_entries (H := sample_collaborators)
              ∅ (Err (HttpExceptionInst not_found_failure)) empty_world
              eq_refl)
    as (w' & extra & code & body & text & Hrun & Hwritten & Htext
        & Hlogs & Hextra).
  exists w'. split; [exact Hrun|].
  simpl in Hextra. subst extra. rewrite Hlogs.
  unfold sample_catch in Hrun. vm_compute in Hrun.
  inversion Hrun as [Hw]. subst w'. vm_compute in Hwritten.
  inversion Hwritten. subst body. vm_compute in Htext.
  inversion Htext. reflexivity.
Defined.

Lemma catch_joins_validation_messages_witness :
  getHttpErrorInfo validation_failure =
    Normal (BAD_REQUEST, Str "a required, b required")
  /\ exists w',
      sample_catch ∅ (Err (HttpExceptionInst validation_failure)) empty_world =
        (Normal tt, w')
      /\ new_written empty_world w' =
           [(400,
             {| requestId := "Request ID undefined";
                responseInfo := BAD_REQUEST;
                error :=
                  {| dto_message := Str "a required, b required" |} |})].
Proof.
  exact (catch_joins_validation_messages (H := sample_collaborators)
           ∅ validation_failure ["a required"; "b required"] empty_world
           eq_refl eq_refl).
Defined.

(** C7 as stated fails: on an HttpException whose response body is null
    no response is written, and the message of the response to an
    HttpException with status 422 and an array in its message field is
    the array. *)
Lemma catch_writes_array_message :
  written
    (sample_catch ∅ (Err (HttpExceptionInst null_response_failure))
       empty_world).2 = []
  /\ written
       (sample_catch ∅ (Err (HttpExceptionInst unprocessable_failure))
          empty_world).2 =
       [(422, envelope "Request ID undefined" UNPROCESSABLE_ENTITY
                (Array [Str "a required"; Str "b required"]))]
  /\ is_string (Array [Str "a required"; Str "b required"]) = false.
Proof. repeat split; reflexivity. Qed.

Lemma catch_envelope_witness :
  exists w' body,
    sample_catch ∅ (Err (HttpExceptionInst not_found_failure)) empty_world =
      (Normal tt, w')
    /\ new_written empty_world w' =
         [(@status sample_collaborators (responseInfo body), body)]
    /\ requestId body = "Request ID undefined"
    /\ is_string (dto_message (error body)) = true.
Proof.
  destruct (catch_envelope (H := sample_collaborators)
              ∅ (Err (HttpExceptionInst not_found_failure)) empty_world
              eq_refl)
    as (w' & body & Hrun & Hwritten & Hid & Hstring).
  exists w', body. repeat split; try assumption. apply Hstring. reflexivity.
Defined.

Lemma catch_default_request_id_witness :
  let w' := (sample_catch ∅ (Val (Str "boom")) empty_world).2 in
  Forall (fun r => requestId r.2 = "Request ID undefined")
    (new_written empty_world w')
  /\ length (new_written empty_world w') = 1%nat.
Proof.
  assert (Hunset : (∅ : gmap string string) !! "requestId" = None)
    by reflexivity.
  destruct (catch_default_request_id (H := sample_collaborators)
              ∅ (Val (Str "boom")) empty_world Hunset)
    as (Hwritten & _ & Hcount & _).
  split; [exact Hwritten | exact Hcount].
Defined.

(** C9 as stated fails: on an HttpException whose response body is
    undefined the filter raises and resolves no ResponseInfo. *)
Lemma undefined_response_resolves_nothing :
  sample_catch ∅ (Err (HttpExceptionInst undefined_response_failure))
    empty_world = (Throw TypeError, empty_world)
  /\ ~ exists info w' code body,
        sample_catch ∅ (Err (HttpExceptionInst undefined_response_failure))
          empty_world = (Normal tt, w')
        /\ new_written empty_world w' = [(code, body)]
        /\ responseInfo body = info.
Proof.
  split; [reflexivity|].
  intros (info & w' & code & body & Hrun & _). discriminate Hrun.
Qed.

Lemma classification_total_witness :
  exists w' code body,
    sample_catch ∅ (Err (HttpExceptionInst teapot_failure)) empty_world =
      (Normal tt, w')
    /\ new_written empty_world w' = [(code, body)]
    /\ responseInfo body = INTERNAL_SERVER_ERROR.
Proof.
  exact (proj1 (proj1 (proj2 (classification_total
                                (H := sample_collaborators)
                                (Err (HttpExceptionInst teapot_failure))))
                  ∅ empty_world eq_refl)).
Defined.

Lemma catch_env_internal_error_witness :
  exists w',
    sample_catch ∅ (Err (EnvUndefinedErrorInst env_failure)) empty_world =
      (Normal tt, w')
    /\ new_written empty_world w' =
         [(500,
           {| requestId := "Request ID undefined";
              responseInfo := INTERNAL_SERVER_ERROR;
              error := {| dto_message := Str "Internal server error" |} |})].
Proof.
  exact (catch_env_internal_error (H := sample_collaborators)
           ∅ (Err (EnvUndefinedErrorInst env_failure)) empty_world
           eq_refl eq_refl).
Defined.

(** ** Further properties of the filter *)

(** *** Message extraction in [getHttpErrorInfo] *)

Lemma resolve_bad_request : resolve 400 = BAD_REQUEST.
Proof. reflexivity. Qed.

Lemma extracted_message_selected (e : HttpException) :
  isArray (message_field (getResponse e)) = false ->
  extracted_message e = Normal (selected_message e).
Proof.
  intros Hfield. unfold extracted_message.
  destruct (getStatus e =? 400); [|reflexivity].
  destruct (message_field (getResponse e)); try reflexivity.
  discriminate Hfield.
Qed.

(** X1: a response body that is a string is the message as it stands, the
    empty string and status 400 included: the test is on the type of the
    body, not on its truth. *)
Theorem string_response_verbatim (e : HttpException) (s : string) :
  getResponse e = Str s ->
  getHttpErrorInfo e = Normal (resolve (getStatus e), Str s).
Proof.
  intros Hbody.
  rewrite getHttpErrorInfo_returns by (rewrite Hbody; reflexivity).
  rewrite extracted_message_selected by (rewrite Hbody; reflexivity).
  unfold selected_message. rewrite Hbody. reflexivity.
Qed.

(** X2: a response body that is not a string and whose message field is
    missing or falsy (undefined, null, false, 0, the empty string) gives
    the exception's own message, under every status. *)
Theorem falsy_message_falls_back (e : HttpException) :
  is_nullish (getResponse e) = false ->
  is_string (getResponse e) = false ->
  truthy (message_field (getResponse e)) = false ->
  getHttpErrorInfo e =
    Normal (resolve (getStatus e), Str (message (http_error e))).
Proof.
  intros Hok Hstr Hfalsy. rewrite (getHttpErrorInfo_returns _ Hok).
  rewrite extracted_message_selected
    by (destruct (message_field (getResponse e)); try reflexivity;
        discriminate Hfalsy).
  unfold selected_message. rewrite Hstr, Hfalsy. reflexivity.
Qed.

(** X3: a truthy message field of a response body that is not a string is
    returned as it is, whatever its type, unless it is an array under
    status 400; an array under any other status is not joined. *)
Theorem truthy_message_passed_through (e : HttpException) :
  is_string (getResponse e) = false ->
  truthy (message_field (getResponse e)) = true ->
  (getStatus e = 400 -> isArray (message_field (getResponse e)) = false) ->
  getHttpErrorInfo e =
    Normal (resolve (getStatus e), message_field (getResponse e)).
Proof.
  intros Hstr Htruthy Hjoin.
  assert (Hok : is_nullish (getResponse e) = false)
    by (destruct (getResponse e); try reflexivity; discriminate Htruthy).
  rewrite (getHttpErrorInfo_returns _ Hok).
  assert (Hmsg : extracted_message e = Normal (selected_message e)).
  { unfold extracted_message.
    destruct (Z.eqb_spec (getStatus e) 400) as [Hcode|]; [|reflexivity].
    specialize (Hjoin Hcode).
    destruct (message_field (getResponse e)); try reflexivity.
    discriminate Hjoin. }
  rewrite Hmsg. unfold selected_message. rewrite Hstr, Htruthy. reflexivity.
Qed.

Lemma join_primitives (elements : list Value) (texts : list string)
  (separator : string) :
  Forall2 (fun v text => primitive_text v = Some text) elements texts ->
  join elements separator = Normal (String.concat separator texts).
Proof.
  intros Hall. unfold join.
  assert (Heach : join_elements elements = Normal texts).
  { induction Hall as [|v text l k Hv _ IH]; [reflexivity|].
    simpl. rewrite IH. unfold join_element.
    destruct v as [| |[]| | | |]; simpl in *;
      try discriminate Hv; inversion Hv; reflexivity. }
  rewrite Heach. reflexivity.
Qed.

(** X4: under status 400 the message returned is never an array, and an
    array of primitives in the message field, the empty array included,
    is replaced by the texts of its elements joined with a comma and a
    space: a string is itself, a number its digits, a boolean its name,
    undefined and null the empty string. *)
Theorem bad_request_message_joined (e : HttpException) :
  getStatus e = 400 ->
  (forall info m, getHttpErrorInfo e = Normal (info, m) -> isArray m = false)
  /\ (forall elements texts,
        message_field (getResponse e) = Array elements ->
        Forall2 (fun v text => primitive_text v = Some text) elements texts ->
        getHttpErrorInfo e =
          Normal (BAD_REQUEST, Str (String.concat ", " texts))).
Proof.
  intros Hcode. split.
  - intros info m Hrun. destruct (is_nullish (getResponse e)) eqn:Hnull.
    { rewrite (getHttpErrorInfo_raises _ Hnull) in Hrun. discriminate Hrun. }
    rewrite (getHttpErrorInfo_returns _ Hnull) in Hrun.
    unfold extracted_message, selected_message in Hrun.
    rewrite Hcode in Hrun. simpl in Hrun.
    destruct (message_field (getResponse e)) as [| |b|n|s|l|ps] eqn:Hfield;
      simpl in Hrun;
      try (destruct (join l ", "); simpl in Hrun;
           [inversion Hrun; reflexivity | discriminate Hrun]);
      destruct (getResponse e) as [| | | | | |] eqn:Hbody; simpl in Hrun;
      try discriminate Hfield;
      repeat match type of Hrun with
             | context [if ?c then _ else _] => destruct c
             end;
      inversion Hrun; reflexivity.
  - intros elements texts Hfield Hall.
    assert (Hok : is_nullish (getResponse e) = false)
      by (destruct (getResponse e); try reflexivity; discriminate Hfield).
    rewrite (getHttpErrorInfo_returns _ Hok).
    unfold extracted_message. rewrite Hcode, Hfield. simpl.
    rewrite (join_primitives _ _ _ Hall). reflexivity.
Qed.

(** X5: [getHttpErrorInfo] raises a TypeError exactly when the response
    body is null or undefined, or when under status 400 the message field
    is an array that cannot be converted to a string. *)
Theorem getHttpErrorInfo_raises_iff (e : HttpException) :
  getHttpErrorInfo e = Throw TypeError
  <-> is_nullish (getResponse e) = true \/ join_raises e = true.
Proof.
  pose proof (extracted_message_cases e) as Hcases.
  destruct (is_nullish (getResponse e)) eqn:Hnull.
  - split; [auto|]. intros _. apply getHttpErrorInfo_raises. exact Hnull.
  - rewrite (getHttpErrorInfo_returns _ Hnull).
    destruct (join_raises e).
    + rewrite Hcases. split; [auto|reflexivity].
    + destruct Hcases as (m & -> & _). simpl.
      split; [discriminate | intros [Hno|Hno]; discriminate Hno].
Qed.

(** *** The switch of [getHttpErrorInfo] *)

Lemma resolve_internal_server_error (code : Z) :
  resolve code = INTERNAL_SERVER_ERROR <->
  code ∉ [400; 401; 403; 404; 409; 410; 413; 415; 422; 501; 503].
Proof.
  destruct (decide (code ∈ mapped_codes)) as [Hin|Hout].
  - unfold mapped_codes in Hin. rewrite !elem_of_cons, elem_of_nil in Hin.
    destruct_or!; try contradiction; subst code; split.
    all: try (intros Hr; vm_compute in Hr; discriminate Hr).
    all: try (intros _; reflexivity).
    all: try (intros _; apply (bool_decide_unpack _); vm_compute; exact I).
    all: intros Hn; exfalso; apply Hn;
      apply (bool_decide_unpack _); vm_compute; exact I.
  - split; [intros _ | intros _; apply resolve_unmapped; exact Hout].
    intros Hin. apply Hout. unfold mapped_codes.
    rewrite !elem_of_cons, elem_of_nil in *. tauto.
Qed.

(** X6: [INTERNAL_SERVER_ERROR] is what the switch gives status 500 and
    every status it has no case for, and nothing else: a response of that
    category does not tell a 500 from, say, a 502 or a 429. *)
Theorem internal_server_error_iff (e : HttpException) :
  is_nullish (getResponse e) = false ->
  (exists m, getHttpErrorInfo e = Normal (INTERNAL_SERVER_ERROR, m))
  <-> getStatus e ∉ [400; 401; 403; 404; 409; 410; 413; 415; 422; 501; 503].
Proof.
  intros Hok. rewrite (getHttpErrorInfo_returns _ Hok).
  rewrite <- resolve_internal_server_error. split.
  - intros [m Hm]. destruct (extracted_message e); simpl in Hm;
      [inversion Hm; reflexivity | discriminate Hm].
  - intros Hinfo. rewrite Hinfo.
    assert (Hcode : (getStatus e =? 400) = false).
    { apply Z.eqb_neq. intros Hcode. rewrite Hcode in Hinfo.
      discriminate Hinfo. }
    unfold extracted_message. rewrite Hcode. eexists. reflexivity.
Qed.

(** X7: the switch is one-to-one on the twelve status codes it has a case
    for: two exceptions of different mapped codes never get the same
    category. *)
Theorem mapped_codes_one_to_one
  (e1 e2 : HttpException) (info : ResponseInfo) (m1 m2 : Value) :
  getStatus e1 ∈ mapped_codes ->
  getStatus e2 ∈ mapped_codes ->
  getHttpErrorInfo e1 = Normal (info, m1) ->
  getHttpErrorInfo e2 = Normal (info, m2) ->
  getStatus e1 = getStatus e2.
Proof.
  intros Hin1 Hin2 Hrun1 Hrun2.
  assert (Hinfo : forall e m, getHttpErrorInfo e = Normal (info, m) ->
                               info = resolve (getStatus e)).
  { intros e m Hrun. destruct (is_nullish (getResponse e)) eqn:Hnull.
    - rewrite (getHttpErrorInfo_raises _ Hnull) in Hrun. discriminate Hrun.
    - rewrite (getHttpErrorInfo_returns _ Hnull) in Hrun.
      destruct (extracted_message e); simpl in Hrun;
        [inversion Hrun; reflexivity | discriminate Hrun]. }
  pose proof (status_resolve (H := sample_collaborators) (getStatus e1)) as H1.
  pose proof (status_resolve (H := sample_collaborators) (getStatus e2)) as H2.
  rewrite bool_decide_eq_true_2 in H1, H2 by assumption.
  rewrite <- H1, <- H2.
  rewrite <- (Hinfo _ _ Hrun1), <- (Hinfo _ _ Hrun2). reflexivity.
Qed.

(** *** Classification *)


(** *** The effects of [catch] *)

Lemma string_app_assoc (a b c : string) : (a +:+ b) +:+ c = a +:+ (b +:+ c).
Proof.
  induction a as [|ch a IH]; [reflexivity|].
  change (String ch ((a +:+ b) +:+ c) = String ch (a +:+ (b +:+ c))).
  f_equal. exact IH.
Qed.

Section Effects.

Context `{Collaborators}.

(** X8: a correlation identifier held by the per-request store is used as
    it is, the empty string included, in every response written and in
    every entry logged. *)
Theorem catch_stored_request_id
  (cls : gmap string string) (id : string) (x : Unknown) (w : World) :
  cls !! "requestId" = Some id ->
  let w' := (catch cls x w).2 in
  Forall (fun r => requestId r.2 = id) (new_written w w')
  /\ Forall (fun entry =>
              starts_with ("Request Error - ID: " +:+ id +:+ ", ")
                (log_message entry))
       (new_logs w w').
Proof.
  intros Hset w'. subst w'.
  assert (Hid : correlation_id cls = id)
    by (unfold correlation_id; rewrite Hset; reflexivity).
  destruct (raises x) eqn:Hraises.
  - rewrite catch_raises by exact Hraises. simpl.
    unfold new_written, new_logs. rewrite !drop_all. auto.
  - destruct (catch_completes cls x w Hraises)
      as (extra & m & text & _ & _ & -> & Hextra).
    simpl. rewrite new_written_app, new_logs_app, Hid in *.
    split; [repeat constructor|].
    apply Forall_app. split.
    + destruct (isHandledError x); [subst extra; constructor|].
      destruct Hextra as [label ->]. repeat constructor.
      exists label. cbn [log_message].
      rewrite !string_app_assoc. reflexivity.
    + repeat constructor. eexists. cbn [log_message final_entry].
      rewrite !string_app_assoc. reflexivity.
Qed.

(** X9: [catch] only appends: what was logged and written before stays in
    place, at most two entries are logged, at most one response is
    written, and a response is written exactly when [catch] completes
    without raising. *)
Theorem catch_appends
  (cls : gmap string string) (x : Unknown) (w : World) :
  exists (l : list LogEntry) (k : list (Z * BaseResponse)),
    (catch cls x w).2 = {| logs := logs w ++ l; written := written w ++ k |}
    /\ (length l <= 2)%nat
    /\ (length k <= 1)%nat
    /\ (length k = 1%nat <-> (catch cls x w).1 = Normal tt).
Proof.
  destruct (raises x) eqn:Hraises.
  - rewrite catch_raises by exact Hraises. exists [], [].
    destruct w as [ls ws]. simpl. rewrite !app_nil_r.
    repeat split; try lia; discriminate.
  - destruct (catch_completes cls x w Hraises)
      as (extra & m & text & _ & _ & -> & Hextra).
    do 2 eexists. split; [reflexivity|]. simpl.
    rewrite length_app. simpl.
    assert (Hlen : (length extra <= 1)%nat).
    { destruct (isHandledError x); [subst extra; simpl; lia|].
      destruct Hextra as [label ->]. simpl. lia. }
    repeat split; lia.
Qed.

End Effects.

(** *** The further properties at work *)

Lemma string_response_verbatim_witness :
  getHttpErrorInfo (http_exception 400 (Str "") "") =
    Normal (BAD_REQUEST, Str "").
Proof.
  exact (string_response_verbatim (http_exception 400 (Str "") "") "" eq_refl).
Defined.

Lemma falsy_message_falls_back_witness :
  getHttpErrorInfo (http_exception 404 (Object []) "Http Exception") =
    Normal (NOT_FOUND, Str "Http Exception").
Proof.
  exact (falsy_message_falls_back
           (http_exception 404 (Object []) "Http Exception")
           eq_refl eq_refl eq_refl).
Defined.

Lemma truthy_message_passed_through_witness :
  getHttpErrorInfo unprocessable_failure =
    Normal (UNPROCESSABLE_ENTITY, Array [Str "a required"; Str "b required"]).
Proof.
  apply (truthy_message_passed_through unprocessable_failure);
    [reflexivity | reflexivity | intros Hcode; discriminate Hcode].
Defined.

Lemma bad_request_message_joined_witness :
  getHttpErrorInfo
    (http_exception 400
       (Object [("message",
                 Array [Str "a required"; Null; Number (SafeInt 42 I);
                        Boolean true; Undefined])])
       "Http Exception") =
    Normal (BAD_REQUEST, Str "a required, , 42, true, ").
Proof.
  apply (proj2 (bad_request_message_joined
                  (http_exception 400
                     (Object [("message",
                               Array [Str "a required"; Null;
                                      Number (SafeInt 42 I);
                                      Boolean true; Undefined])])
                     "Http Exception")
                  eq_refl)
           _ ["a required"; ""; "42"; "true"; ""] eq_refl).
  repeat constructor.
Defined.

Lemma internal_server_error_iff_witness :
  exists m, getHttpErrorInfo teapot_failure = Normal (INTERNAL_SERVER_ERROR, m).
Proof.
  apply (internal_server_error_iff teapot_failure); [reflexivity|].
  apply (bool_decide_unpack _). vm_compute. exact I.
Defined.

Lemma mapped_codes_one_to_one_witness :
  getStatus not_found_failure =
  getStatus (http_exception 404 (Str "No such user") "No such user").
Proof.
  apply (mapped_codes_one_to_one
           not_found_failure
           (http_exception 404 (Str "No such user") "No such user")
           NOT_FOUND (Str "Not Found") (Str "No such user"));
    try reflexivity;
    apply (bool_decide_unpack _); vm_compute; exact I.
Defined.

Lemma catch_stored_request_id_witness :
  let w' :=
    (sample_catch (<["requestId" := ""]> ∅) (Val (Str "boom")) empty_world).2 in
  Forall (fun r => requestId r.2 = "") (new_written empty_world w')
  /\ Forall (fun entry =>
              starts_with "Request Error - ID: , " (log_message entry))
       (new_logs empty_world w').
Proof.
  assert (Hset : (<["requestId" := ""]> ∅ : gmap string string)
                   !! "requestId" = Some "")
    by reflexivity.
  exact (catch_stored_request_id (H := sample_collaborators)
           (<["requestId" := ""]> ∅) "" (Val (Str "boom")) empty_world Hset).
Defined.
